(** * pocketbase-typegen: the schema-to-TypeScript generator of [dist/index.js]

    A shallow embedding of [src/utils.ts] ([toPascalCase], [sanitizeFieldName])
    and [src/lib.ts] ([pbSchemaTypescriptMap], [generate], [createCollectionEnum],
    [createCollectionRecord], [createRecordType], [createTypeField]) as bundled
    in [dist/index.js], followed by the properties of the specification.

    Modelling choices.
    - A JavaScript string is a Rocq [string], one [ascii] per code unit.  The
      character tables of the runtime ([\p{L}], [\d], [toUpperCase],
      [toLowerCase], the default [sort] order) are those of the ASCII range;
      a character above 127 is neither letter nor digit here and has no case.
    - A thrown exception is the [Throw] branch of [result]; [forEach] loops
      become folds in the error monad, so the first exception ends the run.
    - [undefined]/absent properties are [None].
    - The module is an ES module (it uses [import]), hence strict: a function
      taken out of [pbSchemaTypescriptMap] and called as
      [typeStringOrFunc(options)] runs with [this] undefined. *)

From Stdlib Require Import String Ascii List Bool NArith ZArith Lia.
From Stdlib Require Import Sorting.Sorted Sorting.Permutation.
Import ListNotations.

Local Open Scope list_scope.
Local Open Scope string_scope.

(** ** Exceptions *)

Inductive error : Type :=
| Error (message : string)      (* [throw new Error(message)] *)
| TypeError.                    (* property read on [undefined], [ToObject(undefined)] *)

Inductive result (A : Type) : Type :=
| Ok (a : A)
| Throw (e : error).

Arguments Ok {A} a.
Arguments Throw {A} e.

Definition bind {A B : Type} (m : result A) (k : A -> result B) : result B :=
  match m with
  | Ok a => k a
  | Throw e => Throw e
  end.

Notation "x <- m ;; k" := (bind m (fun x => k))
  (at level 61, m at next level, right associativity).

Definition isOk {A : Type} (m : result A) : bool :=
  match m with Ok _ => true | Throw _ => false end.

(** [xs.forEach(f)] where [f] updates an accumulator and may throw. *)
Fixpoint forEach {A S : Type} (f : S -> A -> result S) (xs : list A) (acc : S)
  : result S :=
  match xs with
  | [] => Ok acc
  | x :: rest => acc' <- f acc x ;; forEach f rest acc'
  end.

(** The same loop when the body cannot throw. *)
Definition forEachPure {A S : Type} (f : S -> A -> S) (xs : list A) (acc : S) : S :=
  fold_left f xs acc.

(** ** The runtime's strings *)

Module Js.

Definition TAB : string := String "009"%char EmptyString.
Definition LF : string := String "010"%char EmptyString.
Definition DQ : string := String "034"%char EmptyString.

Definition between (lo hi : N) (c : ascii) : bool :=
  let n := N_of_ascii c in (lo <=? n)%N && (n <=? hi)%N.

(** [\d] *)
Definition isDigit (c : ascii) : bool := between 48 57 c.
Definition isUpper (c : ascii) : bool := between 65 90 c.
Definition isLower (c : ascii) : bool := between 97 122 c.
(** [\p{L}] *)
Definition isLetter (c : ascii) : bool := isUpper c || isLower c.
(** The character class [[\p{L}\d]] of the three regular expressions. *)
Definition wordChar (c : ascii) : bool := isLetter c || isDigit c.

Definition upperChar (c : ascii) : ascii :=
  if isLower c then ascii_of_N (N_of_ascii c - 32) else c.
Definition lowerChar (c : ascii) : ascii :=
  if isUpper c then ascii_of_N (N_of_ascii c + 32) else c.

Fixpoint mapChars (f : ascii -> ascii) (s : string) : string :=
  match s with
  | EmptyString => EmptyString
  | String c r => String (f c) (mapChars f r)
  end.

Definition toUpperCase : string -> string := mapChars upperChar.
Definition toLowerCase : string -> string := mapChars lowerChar.

Fixpoint allChars (p : ascii -> bool) (s : string) : bool :=
  match s with
  | EmptyString => true
  | String c r => p c && allChars p r
  end.

Fixpoint filterChars (p : ascii -> bool) (s : string) : string :=
  match s with
  | EmptyString => EmptyString
  | String c r => if p c then String c (filterChars p r) else filterChars p r
  end.

(** [str.charAt(i)]: the one-character string at [i], or the empty string. *)
Definition charAt (str : string) (i : nat) : string := substring i 1 str.

(** [str.slice(i)] for [i >= 0]. *)
Fixpoint slice (str : string) (i : nat) {struct i} : string :=
  match i with
  | O => str
  | S j => match str with
           | EmptyString => EmptyString
           | String _ r => slice r j
           end
  end.

(** Truthiness of a string: every string but the empty one. *)
Definition truthy (s : string) : bool :=
  match s with EmptyString => false | String _ _ => true end.

(** [parts.join(sep)] *)
Definition join (sep : string) (parts : list string) : string :=
  String.concat sep parts.

(** [isNaN(parseFloat(name.charAt(0)))].  [charAt(0)] holds at most one
    character, and on such a string [parseFloat] yields a number exactly when
    that character is a decimal digit (a lone sign, dot, letter or blank, and
    the empty string, all give [NaN]). *)
Definition isNaN_parseFloat (s : string) : bool :=
  match s with
  | String c EmptyString => negb (isDigit c)
  | _ => true
  end.

(** *** [Array.prototype.sort()] without comparator

    The elements are strings, compared by code units; the order is total and
    two strings that compare equal are the same string, so every sorting
    algorithm returns the same array.  Insertion sort stands for it. *)
Fixpoint insert (x : string) (l : list string) : list string :=
  match l with
  | [] => [x]
  | y :: t => if String.leb x y then x :: l else y :: insert x t
  end.

Fixpoint sort (l : list string) : list string :=
  match l with
  | [] => []
  | x :: t => insert x (sort t)
  end.

(** *** Global regular-expression replacement

    [str.replace(re, callback)], where the global expression [re] has two
    groups, one word character [g1] and then a greedy star of word characters
    [g2], cuts [str] from the left into matches and the characters in between,
    which it copies. *)
Inductive piece : Type :=
| Matched (g1 : ascii) (g2 : string)
| Copied (c : ascii).

(** A word character in front of the pieces of the rest: it starts a match,
    whose greedy group swallows the match that begins right behind it. *)
Definition extend (c : ascii) (ps : list piece) : list piece :=
  match ps with
  | Matched g1 g2 :: t => Matched c (String g1 g2) :: t
  | _ => Matched c EmptyString :: ps
  end.

Fixpoint pieces (str : string) : list piece :=
  match str with
  | EmptyString => []
  | String c r => if wordChar c then extend c (pieces r) else Copied c :: pieces r
  end.

Definition replaceWith (callback : ascii -> string -> string) (str : string) : string :=
  String.concat EmptyString
    (map (fun p => match p with
                   | Matched g1 g2 => callback g1 g2
                   | Copied c => String c EmptyString
                   end) (pieces str)).

(** The longest prefix of word characters, and what follows it. *)
Fixpoint wordPrefix (s : string) : string :=
  match s with
  | EmptyString => EmptyString
  | String c r => if wordChar c then String c (wordPrefix r) else EmptyString
  end.

Fixpoint afterWordPrefix (s : string) : string :=
  match s with
  | EmptyString => EmptyString
  | String c r => if wordChar c then afterWordPrefix r else s
  end.

End Js.

Import Js.

(** ** src/utils.ts *)

(** [/^[\p{L}\d]+$/iu.test(str)] *)
Definition onlyWordChars (str : string) : bool :=
  truthy str && allChars wordChar str.

Definition toPascalCase (str : string) : string :=
  if onlyWordChars str then
    toUpperCase (charAt str 0) ++ slice str 1
  else
    filterChars wordChar
      (replaceWith (fun g1 g2 => toUpperCase (String g1 EmptyString) ++ toLowerCase g2) str).

Definition sanitizeFieldName (name : string) : string :=
  if negb (isNaN_parseFloat (charAt name 0)) then DQ ++ name ++ DQ else name.

(** ** src/lib.ts *)

(** The [options] bag of a field: the two keys the generator reads. *)
Record Options : Type := mkOptions {
  values : option (list string);
  maxSelect : option Z
}.

(** One entry of a collection's [schema] array. *)
Record RecordSchema : Type := mkRecordSchema {
  name : string;
  type : string;
  required : bool;
  options : option Options
}.

(** One element of [results]. *)
Module Collection.
Record t : Type := mk {
  name : string;
  schema : option (list RecordSchema)
}.
End Collection.

(** What a property of [pbSchemaTypescriptMap] can hold.  A function is
    represented by the text its result interpolates to in a template literal;
    [VObject] is an object that is not callable, with its string conversion. *)
Inductive value : Type :=
| VString (s : string)
| VFunc (f : option Options -> result string)
| VObject (toStr : string).

(** [(opts) => opts.values ? opts.values.map((val) => `"${val}"`).join(" | ") : "string"] *)
Definition selectType (opts : option Options) : result string :=
  match opts with
  | None => Throw TypeError
  | Some o =>
      match values o with
      | Some vals => Ok (join " | " (map (fun val => DQ ++ val ++ DQ) vals))
      | None => Ok "string"
      end
  end.

(** [(opts) => opts.maxSelect && opts.maxSelect > 1 ? "string[]" : "string"] *)
Definition fileType (opts : option Options) : result string :=
  match opts with
  | None => Throw TypeError
  | Some o =>
      match maxSelect o with
      | Some n => if negb (n =? 0)%Z && (1 <? n)%Z then Ok "string[]" else Ok "string"
      | None => Ok "string"
      end
  end.

(** The own properties of the object literal, in source order. *)
Definition pbSchemaTypescriptMap : list (string * value) :=
  [ ("text", VString "string");
    ("number", VString "number");
    ("bool", VString "boolean");
    ("email", VString "string");
    ("url", VString "string");
    ("date", VString "string");
    ("select", VFunc selectType);
    ("json", VString "null | unknown");
    ("file", VFunc fileType);
    ("relation", VString "string");
    ("user", VString "string") ].

Fixpoint ownProperty (k : string) (obj : list (string * value)) : option value :=
  match obj with
  | [] => None
  | (k', v) :: rest => if String.eqb k k' then Some v else ownProperty k rest
  end.

(** An object literal inherits from [Object.prototype]; both [k in obj] and
    [obj[k]] look there when [obj] has no own property [k].  The members are
    given as they behave when called with [this] undefined and one argument
    (ECMA-262, 20.1.3): [toString] answers [[object Undefined]], [constructor]
    returns an ordinary object, [isPrototypeOf] answers [false] for a
    non-object argument, and the others start with [ToObject(this)], which
    throws; [__proto__] is an accessor whose value is [Object.prototype]
    itself. *)
Definition throwsOnUndefinedThis : list string :=
  [ "toLocaleString"; "valueOf"; "hasOwnProperty"; "propertyIsEnumerable";
    "__defineGetter__"; "__defineSetter__"; "__lookupGetter__"; "__lookupSetter__" ].

Definition objectPrototype (k : string) : option value :=
  if String.eqb k "constructor" then Some (VFunc (fun _ => Ok "[object Object]"))
  else if String.eqb k "toString" then Some (VFunc (fun _ => Ok "[object Undefined]"))
  else if String.eqb k "isPrototypeOf" then
    Some (VFunc (fun opts => match opts with
                             | None => Ok "false"
                             | Some _ => Throw TypeError
                             end))
  else if existsb (String.eqb k) throwsOnUndefinedThis then
    Some (VFunc (fun _ => Throw TypeError))
  else if String.eqb k "__proto__" then Some (VObject "[object Object]")
  else None.

(** [obj[k]], with [None] exactly when [k in obj] is false. *)
Definition getProperty (k : string) (obj : list (string * value)) : option value :=
  match ownProperty k obj with
  | Some v => Some v
  | None => objectPrototype k
  end.

Definition unknownType (t : string) : error :=
  Error ("unknown type " ++ t ++ " found in schema").

(** The first half of [createTypeField]: the membership test, the lookup and
    the call, which give [typeString] (the specification's [renderFieldType]). *)
Definition renderFieldType (recordSchema : RecordSchema) : result string :=
  match getProperty (type recordSchema) pbSchemaTypescriptMap with
  | None => Throw (unknownType (type recordSchema))
  | Some typeStringOrFunc =>
      match typeStringOrFunc with
      | VFunc f => f (options recordSchema)
      | VString s => Ok s
      | VObject s => Ok s
      end
  end.

Definition createTypeField (recordSchema : RecordSchema) : result string :=
  typeString <- renderFieldType recordSchema ;;
  Ok (TAB ++ sanitizeFieldName (name recordSchema)
          ++ (if required recordSchema then "" else "?")
          ++ ": " ++ typeString ++ LF).

Definition createRecordType (name : string) (schema : list RecordSchema) : result string :=
  typeString <-
    forEach (fun typeString recordSchema =>
               line <- createTypeField recordSchema ;; Ok (typeString ++ line))
            schema
            ("export type " ++ toPascalCase name ++ "Record = {" ++ LF) ;;
  Ok (typeString ++ "}").

Definition createCollectionRecord (collectionNames : list string) : string :=
  forEachPure (fun typeString name =>
                 typeString ++ TAB ++ name ++ ": " ++ toPascalCase name ++ "Record" ++ LF)
              collectionNames
              ("export type CollectionRecords = {" ++ LF)
  ++ "}".

Definition createCollectionEnum (collectionNames : list string) : string :=
  forEachPure (fun typeString name =>
                 typeString ++ TAB ++ toPascalCase name ++ " = " ++ DQ ++ name ++ DQ ++ "," ++ LF)
              collectionNames
              ("export enum Collections {" ++ LF)
  ++ "}".

Definition header : string := "// This file was @generated using pocketbase-typegen".

(** The body of the loop of [generate], on the pair of arrays it fills. *)
Definition collect (acc : list string * list string) (row : Collection.t)
  : result (list string * list string) :=
  let (collectionNames, recordTypes) := acc in
  let collectionNames :=
    if truthy (Collection.name row) then (collectionNames ++ [Collection.name row])%list
    else collectionNames in
  match Collection.schema row with
  | Some schema =>
      recordType <- createRecordType (Collection.name row) schema ;;
      Ok (collectionNames, (recordTypes ++ [recordType])%list)
  | None => Ok (collectionNames, recordTypes)
  end.

Definition fileParts (collectionNames recordTypes : list string) : list string :=
  let sortedCollectionNames := sort collectionNames in
  ([ header; createCollectionEnum sortedCollectionNames ]
     ++ sort recordTypes
     ++ [ createCollectionRecord sortedCollectionNames ])%list.

Definition generate (results : list Collection.t) : result string :=
  acc <- forEach collect results ([], []) ;;
  let (collectionNames, recordTypes) := acc in
  Ok (join (LF ++ LF) (fileParts collectionNames recordTypes)).

(** ** Definitions used to state the properties *)

(** The loop of [generate], read off one array at a time. *)
Definition collectionNames (results : list Collection.t) : list string :=
  filter truthy (map Collection.name results).

Definition recordTypes (results : list Collection.t) : result (list string) :=
  acc <- forEach collect results ([], []) ;; Ok (snd acc).

Fixpoint mapM {A B : Type} (f : A -> result B) (xs : list A) : result (list B) :=
  match xs with
  | [] => Ok []
  | x :: rest => y <- f x ;; ys <- mapM f rest ;; Ok (y :: ys)
  end.

(** The collections whose [schema] is present, in source order. *)
Fixpoint declared (results : list Collection.t) : list (string * list RecordSchema) :=
  match results with
  | [] => []
  | row :: rest =>
      match Collection.schema row with
      | Some schema => (Collection.name row, schema) :: declared rest
      | None => declared rest
      end
  end.

Definition renderDeclared (d : string * list RecordSchema) : result string :=
  createRecordType (fst d) (snd d).

Definition enumMember (name : string) : string :=
  TAB ++ toPascalCase name ++ " = " ++ DQ ++ name ++ DQ ++ "," ++ LF.

Definition recordMember (name : string) : string :=
  TAB ++ name ++ ": " ++ toPascalCase name ++ "Record" ++ LF.




(** Code-unit order of two strings, as a proposition. *)
Definition le (a b : string) : Prop := String.leb a b = true.

(** The types of the rendering table. *)
Definition knownTypes : list string := map fst pbSchemaTypescriptMap.

(** A type that [type in pbSchemaTypescriptMap] rejects. *)
Definition rejected (f : RecordSchema) : Prop :=
  getProperty (type f) pbSchemaTypescriptMap = None.

(** A field that either renders to a line or has a rejected type. *)
Definition rendersOrRejected (f : RecordSchema) : Prop :=
  isOk (createTypeField f) = true \/ rejected f.

(** All the fields of a schema model, in the order [generate] visits them. *)
Definition fieldsOf (results : list Collection.t) : list RecordSchema :=
  flat_map snd (declared results).






(** *** The specification's wording, for comparison with the code *)







(** Section 4.4, step 2 as worded: the collections with a non-empty field list. *)
Definition spec_declared (results : list Collection.t) : list (string * list RecordSchema) :=
  filter (fun d => match snd d with [] => false | _ :: _ => true end) (declared results).

(** *** Inputs of the examples *)

Definition statusField : RecordSchema :=
  mkRecordSchema "status" "select" true (Some (mkOptions (Some ["open"; "closed"]) None)).


Definition coverField : RecordSchema :=
  mkRecordSchema "cover" "file" false None.

Definition titleField : RecordSchema :=
  mkRecordSchema "title" "toString" true (Some (mkOptions None None)).

Definition bogusField : RecordSchema :=
  mkRecordSchema "x" "bogus" true (Some (mkOptions None None)).

Definition logsOnly : list Collection.t := [ Collection.mk "logs" (Some []) ].

Definition zetaAlpha : list Collection.t := [ Collection.mk "zeta" (Some []); Collection.mk "alpha" (Some []) ].

Definition postsWithInheritedType : list Collection.t := [ Collection.mk "posts" (Some [titleField]) ].

(** ** src/index.ts and [saveFile]

    The three acquisition functions and [fs.writeFile] do input and output;
    they are collaborators of [main], taken here as functions that return a
    schema model or throw.  What a run does to the outside is the list of its
    completed effects. *)

Module Cli.
(** The object returned by [program.opts()]. *)
Record t : Type := mk {
  db : option string;
  json : option string;
  url : option string;
  email : option string;
  password : option string;
  out : string
}.
End Cli.

Inductive event : Type :=
| ConsoleError (message : string)
| ConsoleLog (message : string)
| WriteFile (path content : string).

Record Collaborators : Type := mkCollaborators {
  fromDatabase : string -> result (list Collection.t);
  fromJSON : string -> result (list Collection.t);
  (** the two requests of [fromURL], with the credentials it posts *)
  fetchCollections : string -> string -> string -> result (list Collection.t);
  writeFile : string -> string -> result unit
}.

(** An option of the command line that is present and not the empty string. *)
Definition given (o : option string) : option string :=
  match o with
  | Some s => if truthy s then Some s else None
  | None => None
  end.

(** [async function fromURL(url, email = "", password = "")] *)
Definition fromURL (io : Collaborators) (url : string) (email password : option string)
  : result (list Collection.t) :=
  fetchCollections io url
    (match email with Some e => e | None => "" end)
    (match password with Some pw => pw | None => "" end).

Definition saveFile (io : Collaborators) (outPath typeString : string)
  : list event * result unit :=
  match writeFile io outPath typeString with
  | Ok _ =>
      ([ WriteFile outPath typeString;
         ConsoleLog ("Created typescript definitions at " ++ outPath) ], Ok tt)
  | Throw e => ([], Throw e)
  end.

Definition missingSchemaPath : string :=
  "Missing schema path. Check options: pocketbase-typegen --help".

(** The chain of tests of [main]: [None] when no source is given. *)
Definition acquire (io : Collaborators) (options2 : Cli.t) : option (result (list Collection.t)) :=
  match given (Cli.db options2) with
  | Some path => Some (fromDatabase io path)
  | None =>
      match given (Cli.json options2) with
      | Some path => Some (fromJSON io path)
      | None =>
          match given (Cli.url options2) with
          | Some u => Some (fromURL io u (Cli.email options2) (Cli.password options2))
          | None => None
          end
      end
  end.

Definition main (io : Collaborators) (options2 : Cli.t) : list event * result unit :=
  match acquire io options2 with
  | None => ([ ConsoleError missingSchemaPath ], Ok tt)
  | Some (Throw e) => ([], Throw e)
  | Some (Ok schema) =>
      match generate schema with
      | Throw e => ([], Throw e)
      | Ok typeString => saveFile io (Cli.out options2) typeString
      end
  end.

(** ** More definitions used to state properties *)

Definition startsWithDigit (s : string) : bool :=
  match s with
  | EmptyString => false
  | String c _ => isDigit c
  end.

(** A field with another options bag, and with another name. *)
Definition withOptions (f : RecordSchema) (o : option Options) : RecordSchema :=
  mkRecordSchema (name f) (type f) (required f) o.

(** The entries of the table that are plain strings. *)
Definition constantTypes : list string :=
  [ "text"; "number"; "bool"; "email"; "url"; "date"; "json"; "relation"; "user" ].

(** A row that [generate] does not look at: no name, no field list. *)
Definition blankRow (row : Collection.t) : bool :=
  negb (truthy (Collection.name row))
  && match Collection.schema row with Some _ => false | None => true end.

Definition rendersField (f : RecordSchema) : bool := isOk (createTypeField f).

(** The property names every object literal inherits. *)
Definition inheritedNames : list string :=
  ([ "constructor"; "toString"; "isPrototypeOf" ] ++ throwsOnUndefinedThis
     ++ [ "__proto__" ])%list.

(** The exception a computation ends with, if any. *)
Definition outcome {A : Type} (m : result A) : option error :=
  match m with Ok _ => None | Throw e => Some e end.

(** Inputs of the witnesses. *)
Definition postsRow : Collection.t :=
  Collection.mk "blog_posts" (Some [statusField; mkRecordSchema "cover" "file" false
                                           (Some (mkOptions None (Some 3%Z)))]).

Definition usersRow : Collection.t :=
  Collection.mk "users" (Some [mkRecordSchema "email" "email" true None]).

Definition brokenRow : Collection.t :=
  Collection.mk "broken" (Some [statusField; coverField; bogusField]).

Definition fixedIo (schema : list Collection.t) : Collaborators :=
  mkCollaborators (fun _ => Ok schema) (fun _ => Ok [])
                  (fun _ _ _ => Ok []) (fun _ _ => Ok tt).

(** * Properties *)

(** ** Strings *)

Lemma append_nil_r (s : string) : s ++ "" = s.
Proof. induction s as [|c r IH]; simpl; [reflexivity | now rewrite IH]. Qed.

Lemma append_assoc (a b c : string) : (a ++ b) ++ c = a ++ (b ++ c).
Proof. induction a as [|x a IH]; simpl; [reflexivity | now rewrite IH]. Qed.

Lemma concat_empty_cons (x : string) (xs : list string) :
  String.concat "" (x :: xs) = x ++ String.concat "" xs.
Proof.
  destruct xs as [|y ys]; simpl.
  - now rewrite append_nil_r.
  - reflexivity.
Qed.





Lemma wordChar_lowerChar (c : ascii) : wordChar c = true -> wordChar (lowerChar c) = true.
Proof.
  destruct c as [[] [] [] [] [] [] [] []]; vm_compute; congruence.
Qed.

Lemma allChars_toLowerCase (s : string) :
  allChars wordChar s = true -> allChars wordChar (toLowerCase s) = true.
Proof.
  unfold toLowerCase.
  induction s as [|c r IH]; simpl; [reflexivity|].
  intros [Hc Hr]%andb_prop.
  now rewrite (wordChar_lowerChar c Hc), (IH Hr).
Qed.

(** ** The regular-expression replacement, read from the left

    At a word character the match is that character and the longest run of
    word characters after it, and the scan resumes behind the run; any other
    character is copied. *)

Lemma pieces_copied (c : ascii) (r : string) :
  wordChar c = false -> pieces (String c r) = Copied c :: pieces r.
Proof. intros H; simpl; now rewrite H. Qed.

Lemma pieces_word (c : ascii) (r : string) :
  wordChar c = true -> pieces (String c r) = extend c (pieces r).
Proof. intros H; simpl; now rewrite H. Qed.

Lemma pieces_matched (c : ascii) (r : string) :
  wordChar c = true ->
  pieces (String c r) = Matched c (wordPrefix r) :: pieces (afterWordPrefix r).
Proof.
  revert c; induction r as [|d r IH]; intros c Hc; rewrite (pieces_word c _ Hc).
  - reflexivity.
  - cbn [wordPrefix afterWordPrefix].
    destruct (wordChar d) eqn:Hd.
    + now rewrite (IH d Hd).
    + now rewrite (pieces_copied d r Hd).
Qed.

(** ** The name normalizer *)




Lemma charAt_0_cons (c : ascii) (r : string) : charAt (String c r) 0 = String c "".
Proof. unfold charAt; simpl; now destruct r. Qed.












(** ** The default sort *)

Lemma compare_lt_trans (a b c : string) :
  String.compare a b = Lt -> String.compare b c = Lt -> String.compare a c = Lt.
Proof.
  revert b c; induction a as [|x a IH]; intros [|y b] [|z c]; simpl;
    try discriminate; auto.
  unfold Ascii.compare.
  destruct (N.compare_spec (N_of_ascii x) (N_of_ascii y)) as [Exy|Lxy|Gxy];
    destruct (N.compare_spec (N_of_ascii y) (N_of_ascii z)) as [Eyz|Lyz|Gyz];
    intros Hab Hbc; try discriminate.
  - rewrite Exy, Eyz, N.compare_refl; now apply (IH b c).
  - now rewrite (proj2 (N.compare_lt_iff _ _)) by lia.
  - now rewrite (proj2 (N.compare_lt_iff _ _)) by lia.
  - now rewrite (proj2 (N.compare_lt_iff _ _)) by lia.
Qed.

Lemma compare_refl (a : string) : String.compare a a = Eq.
Proof.
  induction a as [|x a IH]; simpl; [reflexivity|].
  unfold Ascii.compare; now rewrite N.compare_refl.
Qed.

Lemma le_cases (a b : string) : le a b <-> String.compare a b = Lt \/ a = b.
Proof.
  unfold le, String.leb; split.
  - destruct (String.compare a b) eqn:E; intros H; try discriminate.
    + right; now apply String.compare_eq_iff.
    + now left.
  - intros [H| ->]; [now rewrite H | now rewrite compare_refl].
Qed.

Lemma le_refl (a : string) : le a a.
Proof. apply le_cases; now right. Qed.

Lemma le_trans (a b c : string) : le a b -> le b c -> le a c.
Proof.
  rewrite !le_cases; intros [Hab| ->] [Hbc| ->]; auto.
  left; now apply (compare_lt_trans a b c).
Qed.

Lemma le_total (a b : string) : le a b \/ le b a.
Proof. apply String.leb_total. Qed.

Lemma le_antisym (a b : string) : le a b -> le b a -> a = b.
Proof. apply String.leb_antisym. Qed.

Lemma insert_perm (x : string) (l : list string) : Permutation (insert x l) (x :: l).
Proof.
  induction l as [|y t IH]; simpl; [reflexivity|].
  destruct (String.leb x y); [reflexivity|].
  rewrite IH; apply perm_swap.
Qed.

Lemma sort_perm (l : list string) : Permutation (sort l) l.
Proof.
  induction l as [|x t IH]; simpl; [reflexivity|].
  now rewrite insert_perm, IH.
Qed.

Lemma insert_sorted (x : string) (l : list string) :
  StronglySorted le l -> StronglySorted le (insert x l).
Proof.
  induction 1 as [|y t Ht IH Hy]; simpl.
  - constructor; constructor.
  - destruct (String.leb x y) eqn:E.
    + constructor; [now constructor|].
      constructor; [exact E|].
      eapply Forall_impl; [|exact Hy].
      intros z Hz; now apply (le_trans x y z).
    + constructor; [exact IH|].
      assert (Hyx : le y x).
      { destruct (le_total x y) as [H|H]; [unfold le in H; congruence|exact H]. }
      eapply Permutation_Forall; [symmetry; apply insert_perm|].
      now constructor.
Qed.

Lemma sort_sorted (l : list string) : StronglySorted le (sort l).
Proof.
  induction l as [|x t IH]; simpl; [constructor|now apply insert_sorted].
Qed.

(** Two sorted arrangements of the same strings are the same list: the result
    does not depend on the sorting algorithm of the engine. *)
Lemma sorted_perm_unique (l1 l2 : list string) :
  StronglySorted le l1 -> StronglySorted le l2 -> Permutation l1 l2 -> l1 = l2.
Proof.
  revert l2; induction l1 as [|a l1 IH]; intros l2 H1 H2 P.
  - now apply Permutation_nil in P.
  - destruct l2 as [|b l2]; [now apply Permutation_sym, Permutation_nil in P|].
    apply StronglySorted_inv in H1 as [S1 F1].
    apply StronglySorted_inv in H2 as [S2 F2].
    assert (a = b) as ->.
    { assert (Ia : In a (b :: l2)) by (eapply Permutation_in; [exact P|now left]).
      assert (Ib : In b (a :: l1))
        by (eapply Permutation_in; [symmetry; exact P|now left]).
      destruct Ia as [->|Ia]; [reflexivity|].
      destruct Ib as [->|Ib]; [reflexivity|].
      rewrite Forall_forall in F1, F2.
      apply le_antisym; auto. }
    f_equal; apply IH; auto.
    now apply Permutation_cons_inv in P.
Qed.

Lemma sort_unique (l l' : list string) :
  Permutation l l' -> StronglySorted le l' -> l' = sort l.
Proof.
  intros P S; apply sorted_perm_unique; [exact S|apply sort_sorted|].
  now rewrite sort_perm.
Qed.

(** ** The shape of the loops *)

Lemma forEachPure_append (f : string -> string) (xs : list string) (init : string) :
  forEachPure (fun acc x => acc ++ f x) xs init = init ++ String.concat "" (map f xs).
Proof.
  unfold forEachPure; revert init; induction xs as [|x xs IH]; intros init.
  - simpl; now rewrite append_nil_r.
  - cbn [fold_left map]; now rewrite IH, concat_empty_cons, append_assoc.
Qed.

Lemma createCollectionEnum_eq (names : list string) :
  createCollectionEnum names
  = "export enum Collections {" ++ LF ++ String.concat "" (map enumMember names) ++ "}".
Proof.
  unfold createCollectionEnum.
  rewrite (forEachPure_append enumMember), !append_assoc; reflexivity.
Qed.

Lemma createCollectionRecord_eq (names : list string) :
  createCollectionRecord names
  = "export type CollectionRecords = {" ++ LF
      ++ String.concat "" (map recordMember names) ++ "}".
Proof.
  unfold createCollectionRecord.
  rewrite (forEachPure_append recordMember), !append_assoc; reflexivity.
Qed.

Lemma forEach_lines (schema : list RecordSchema) (init : string) :
  forEach (fun typeString recordSchema =>
             line <- createTypeField recordSchema ;; Ok (typeString ++ line))
          schema init
  = lines <- mapM createTypeField schema ;; Ok (init ++ String.concat "" lines).
Proof.
  revert init; induction schema as [|f fs IH]; intros init.
  - simpl; now rewrite append_nil_r.
  - cbn [forEach mapM].
    destruct (createTypeField f) as [line|e]; cbn [bind]; [|reflexivity].
    rewrite IH.
    destruct (mapM createTypeField fs) as [lines|e]; cbn [bind]; [|reflexivity].
    now rewrite concat_empty_cons, append_assoc.
Qed.

Lemma createRecordType_eq (name : string) (schema : list RecordSchema) :
  createRecordType name schema
  = lines <- mapM createTypeField schema ;;
    Ok ("export type " ++ toPascalCase name ++ "Record = {" ++ LF
          ++ String.concat "" lines ++ "}").
Proof.
  unfold createRecordType; rewrite forEach_lines.
  destruct (mapM createTypeField schema) as [lines|e]; cbn [bind]; [|reflexivity].
  now rewrite !append_assoc.
Qed.

Lemma forEach_collect (results : list Collection.t) (names blocks : list string) :
  forEach collect results (names, blocks)
  = rendered <- mapM renderDeclared (declared results) ;;
    Ok ((names ++ collectionNames results)%list, (blocks ++ rendered)%list).
Proof.
  revert names blocks; induction results as [|row rest IH]; intros names blocks.
  - cbn; now rewrite !app_nil_r.
  - cbn [forEach declared]; unfold collect at 1.
    unfold collectionNames; cbn [map filter]; fold (collectionNames rest).
    destruct (Collection.schema row) as [schema|].
    + cbn [mapM]; unfold renderDeclared at 1; cbn [fst snd].
      destruct (createRecordType (Collection.name row) schema) as [block|e];
        cbn [bind]; [|reflexivity].
      rewrite IH.
      destruct (mapM renderDeclared (declared rest)) as [rendered|e];
        cbn [bind]; [|reflexivity].
      destruct (truthy (Collection.name row)); cbn [app];
        now rewrite <- !app_assoc.
    + cbn [bind]; rewrite IH.
      destruct (mapM renderDeclared (declared rest)) as [rendered|e];
        cbn [bind]; [|reflexivity].
      destruct (truthy (Collection.name row)); cbn [app];
        now rewrite <- ?app_assoc.
Qed.

Lemma recordTypes_eq (results : list Collection.t) :
  recordTypes results = mapM renderDeclared (declared results).
Proof.
  unfold recordTypes; rewrite forEach_collect.
  now destruct (mapM renderDeclared (declared results)).
Qed.

Lemma generate_eq (results : list Collection.t) :
  generate results
  = blocks <- recordTypes results ;;
    Ok (join (LF ++ LF) (fileParts (collectionNames results) blocks)).
Proof.
  unfold generate; rewrite recordTypes_eq, forEach_collect.
  now destruct (mapM renderDeclared (declared results)).
Qed.

(** ** The field type renderer *)

Lemma renderFieldType_select (f : RecordSchema) :
  type f = "select" -> renderFieldType f = selectType (options f).
Proof. intros H; unfold renderFieldType; now rewrite H. Qed.

Lemma renderFieldType_file (f : RecordSchema) :
  type f = "file" -> renderFieldType f = fileType (options f).
Proof. intros H; unfold renderFieldType; now rewrite H. Qed.




(** ** The member line *)

(** C5 (as amended).  The member line of a field whose type renders is a tab,
    the sanitized name, [?] exactly when [required] is false, a colon and a
    space, the rendered type expression, and a line terminator; for the
    [status] field of the specification it is a tab followed by
    [status: "open" | "closed"] and a line terminator. *)
Theorem member_line (f : RecordSchema) (typeString : string) :
  renderFieldType f = Ok typeString ->
  createTypeField f
  = Ok (TAB ++ sanitizeFieldName (name f)
            ++ (if required f then "" else "?")
            ++ ": " ++ typeString ++ LF)
  /\ createTypeField statusField
     = Ok (TAB ++ "status: " ++ DQ ++ "open" ++ DQ ++ " | " ++ DQ ++ "closed" ++ DQ ++ LF).
Proof.
  intros H; split; [|reflexivity].
  unfold createTypeField; now rewrite H.
Qed.

Lemma member_line_witness :
  renderFieldType (mkRecordSchema "2fa" "file" false (Some (mkOptions None (Some 3%Z))))
  = Ok "string[]" /\
  createTypeField (mkRecordSchema "2fa" "file" false (Some (mkOptions None (Some 3%Z))))
  = Ok (TAB ++ DQ ++ "2fa" ++ DQ ++ "?: string[]" ++ LF).
Proof.
  split; [reflexivity|].
  exact (proj1 (member_line
                  (mkRecordSchema "2fa" "file" false (Some (mkOptions None (Some 3%Z))))
                  "string[]" eq_refl)).
Defined.

(** C5 as stated fails: the line does not start with the name, the code puts
    a tab in front of it. *)
Lemma member_line_counterexample :
  createTypeField statusField
  <> Ok ("status: " ++ DQ ++ "open" ++ DQ ++ " | " ++ DQ ++ "closed" ++ DQ ++ LF).
Proof. discriminate. Qed.

(** ** Failures of the field renderer *)

Lemma unknown_type_throws (f : RecordSchema) :
  getProperty (type f) pbSchemaTypescriptMap = None ->
  createTypeField f = Throw (unknownType (type f)).
Proof.
  intros H; unfold createTypeField, renderFieldType; now rewrite H.
Qed.

Lemma bogus_type_aborts :
  generate [ Collection.mk "posts" (Some [statusField; bogusField]) ]
  = Throw (Error "unknown type bogus found in schema").
Proof. reflexivity. Qed.

Lemma known_type_cases (t : string) :
  In t knownTypes ->
  t = "text" \/ t = "number" \/ t = "bool" \/ t = "email" \/ t = "url" \/ t = "date"
  \/ t = "select" \/ t = "json" \/ t = "file" \/ t = "relation" \/ t = "user".
Proof.
  unfold knownTypes; cbn [map fst pbSchemaTypescriptMap In]; intuition auto.
Qed.

Lemma known_type_not_unknown (f : RecordSchema) (t : string) :
  In (type f) knownTypes -> createTypeField f <> Throw (unknownType t).
Proof.
  intros H; apply known_type_cases in H.
  unfold createTypeField, renderFieldType.
  repeat (destruct H as [H|H]); rewrite H; cbn; try discriminate.
  - destruct (options f) as [o|]; cbn; [|discriminate].
    destruct (values o); discriminate.
  - destruct (options f) as [o|]; cbn; [|discriminate].
    destruct (maxSelect o) as [n|]; [|discriminate].
    destruct (negb (n =? 0)%Z && (1 <? n)%Z); discriminate.
Qed.

(** When every field renders or has a rejected type, the first rejected field
    ends the run with the error of [createTypeField], and nothing is returned. *)
Lemma mapM_fields (fields : list RecordSchema) :
  Forall rendersOrRejected fields ->
  (exists lines, mapM createTypeField fields = Ok lines /\ ~ Exists rejected fields) \/
  (exists f, mapM createTypeField fields = Throw (unknownType (type f)) /\ rejected f).
Proof.
  induction 1 as [|f fs Hf _ IH]; cbn [mapM].
  - left; exists []; split; [reflexivity|]; intros E; inversion E.
  - destruct (createTypeField f) as [line|e] eqn:E; cbn [bind].
    + destruct IH as [(lines & -> & N)|(g & -> & R)]; cbn [bind].
      * left; exists (line :: lines); split; [reflexivity|].
        intros X; inversion X as [? ? R|? ? R]; subst; [|now apply N].
        rewrite (unknown_type_throws f R) in E; discriminate E.
      * right; exists g; split; [reflexivity|exact R].
    + right; exists f.
      destruct Hf as [Hf|Hf]; [rewrite E in Hf; discriminate Hf|].
      rewrite (unknown_type_throws f Hf) in E; injection E as <-.
      split; [reflexivity|exact Hf].
Qed.

Lemma mapM_declared (ds : list (string * list RecordSchema)) :
  Forall rendersOrRejected (flat_map snd ds) ->
  (exists blocks, mapM renderDeclared ds = Ok blocks
                  /\ ~ Exists rejected (flat_map snd ds)) \/
  (exists f, mapM renderDeclared ds = Throw (unknownType (type f)) /\ rejected f).
Proof.
  induction ds as [|[n fields] ds IH]; cbn [flat_map snd mapM]; intros H.
  - left; exists []; split; [reflexivity|]; intros E; inversion E.
  - apply Forall_app in H as [Hf Hd].
    unfold renderDeclared at 1 3; cbn [fst snd]; rewrite createRecordType_eq.
    destruct (mapM_fields fields Hf) as [(lines & -> & N)|(g & -> & R)]; cbn [bind].
    + destruct (IH Hd) as [(blocks & -> & N')|(g & -> & R)]; cbn [bind].
      * left; eexists; split; [reflexivity|].
        intros X; apply Exists_app in X as [X|X]; auto.
      * right; exists g; split; [reflexivity|exact R].
    + right; exists g; split; [reflexivity|exact R].
Qed.

Lemma rejected_type_aborts (results : list Collection.t) :
  Forall rendersOrRejected (fieldsOf results) ->
  Exists rejected (fieldsOf results) ->
  exists f, generate results = Throw (unknownType (type f)) /\ rejected f.
Proof.
  intros H E; rewrite generate_eq, recordTypes_eq.
  destruct (mapM_declared (declared results) H) as [(blocks & _ & N)|(g & -> & R)].
  - now elim N.
  - exists g; split; [reflexivity|exact R].
Qed.

(** C4 (the code departs from it).  [toString] is not one of the eleven field
    types, yet a field of that type does not stop the generation: the test
    [type in pbSchemaTypescriptMap] finds the member inherited from
    [Object.prototype], and the document is produced with
    [[object Undefined]] as the type of the field. *)
Theorem inherited_type_is_rendered :
  ~ In "toString" knownTypes /\
  generate postsWithInheritedType
  = Ok (header ++ LF ++ LF
        ++ "export enum Collections {" ++ LF
        ++ TAB ++ "Posts = " ++ DQ ++ "posts" ++ DQ ++ "," ++ LF
        ++ "}" ++ LF ++ LF
        ++ "export type PostsRecord = {" ++ LF
        ++ TAB ++ "title: [object Undefined]" ++ LF
        ++ "}" ++ LF ++ LF
        ++ "export type CollectionRecords = {" ++ LF
        ++ TAB ++ "posts: PostsRecord" ++ LF
        ++ "}").
Proof.
  split; [|reflexivity].
  intros H; apply known_type_cases in H.
  repeat (destruct H as [H|H]); discriminate H.
Qed.

(** C10.  A select or file field without options bag makes [createTypeField]
    throw a [TypeError]; among the fields of a known type these are the only
    ones for which no member line is returned. *)
Theorem missing_options_type_error :
  (forall f, type f = "select" \/ type f = "file" ->
             options f = None ->
             createTypeField f = Throw TypeError) /\
  (forall f, In (type f) knownTypes ->
             (isOk (createTypeField f) = true <->
              (type f = "select" \/ type f = "file" -> options f <> None))).
Proof.
  split.
  - intros f [H|H] Ho; unfold createTypeField.
    + now rewrite (renderFieldType_select f H), Ho.
    + now rewrite (renderFieldType_file f H), Ho.
  - intros f H; apply known_type_cases in H.
    unfold createTypeField, renderFieldType.
    repeat (destruct H as [H|H]); rewrite H; cbn;
      try (split; [intros _ [E|E]; discriminate E|reflexivity]).
    + destruct (options f) as [o|]; cbn.
      * destruct (values o); cbn; split; auto; intros _ _; discriminate.
      * split; [discriminate|]; intros E; exfalso; apply E; auto.
    + destruct (options f) as [o|]; cbn.
      * destruct (maxSelect o) as [n|]; [destruct (negb (n =? 0)%Z && (1 <? n)%Z)|];
          cbn; split; auto; intros _ _; discriminate.
      * split; [discriminate|]; intros E; exfalso; apply E; auto.
Qed.

Lemma missing_options_type_error_witness :
  createTypeField coverField = Throw TypeError /\
  isOk (createTypeField statusField) = true.
Proof.
  split.
  - apply (proj1 missing_options_type_error coverField); [now right|reflexivity].
  - apply (proj2 missing_options_type_error statusField).
    + unfold knownTypes; cbn; tauto.
    + intros _; discriminate.
Defined.

(** ** The record types *)

Lemma mapM_length {A B : Type} (f : A -> result B) (xs : list A) (ys : list B) :
  mapM f xs = Ok ys -> List.length ys = List.length xs.
Proof.
  revert ys; induction xs as [|x xs IH]; intros ys; cbn [mapM].
  - now intros [= <-].
  - destruct (f x) as [y|e]; cbn [bind]; [|discriminate].
    destruct (mapM f xs) as [ys'|e]; cbn [bind]; [|discriminate].
    intros [= <-]; cbn; now rewrite (IH ys' eq_refl).
Qed.


(** C3 (as amended).  A record-type block is rendered exactly for the
    collections whose field list is present, one block each and in source
    order before the sort; a collection whose field list is present but empty
    contributes a declaration with an empty body. *)
Theorem record_types_of_present_schemas :
  (forall results, recordTypes results = mapM renderDeclared (declared results)) /\
  (forall results blocks,
      recordTypes results = Ok blocks ->
      List.length blocks = List.length (declared results)) /\
  (forall name,
      createRecordType name []
      = Ok ("export type " ++ toPascalCase name ++ "Record = {" ++ LF ++ "}")).
Proof.
  split; [exact recordTypes_eq|split].
  - intros results blocks H; rewrite recordTypes_eq in H.
    exact (mapM_length _ _ _ H).
  - intros name; rewrite createRecordType_eq; cbn [mapM bind String.concat].
    reflexivity.
Qed.

Lemma record_types_of_present_schemas_witness :
  recordTypes zetaAlpha
  = Ok [ "export type ZetaRecord = {" ++ LF ++ "}";
         "export type AlphaRecord = {" ++ LF ++ "}" ] /\
  List.length [ "export type ZetaRecord = {" ++ LF ++ "}";
                "export type AlphaRecord = {" ++ LF ++ "}" ]
  = List.length (declared zetaAlpha).
Proof.
  split; [reflexivity|].
  apply (proj1 (proj2 record_types_of_present_schemas) zetaAlpha); reflexivity.
Defined.

(** C3 as stated fails: a collection with an empty field list does contribute
    a record-type declaration. *)
Lemma empty_schema_counterexample :
  recordTypes logsOnly = Ok [ "export type LogsRecord = {" ++ LF ++ "}" ] /\
  generate logsOnly
  = Ok (header ++ LF ++ LF
        ++ "export enum Collections {" ++ LF
        ++ TAB ++ "Logs = " ++ DQ ++ "logs" ++ DQ ++ "," ++ LF
        ++ "}" ++ LF ++ LF
        ++ "export type LogsRecord = {" ++ LF ++ "}" ++ LF ++ LF
        ++ "export type CollectionRecords = {" ++ LF
        ++ TAB ++ "logs: LogsRecord" ++ LF
        ++ "}") /\
  recordTypes logsOnly <> mapM renderDeclared (spec_declared logsOnly).
Proof. repeat split; try reflexivity; discriminate. Qed.

(** ** The enumeration *)

(** C6.  The enumeration of a generated document is built from the non-empty
    collection names, each exactly as often as it occurs, in code-unit order
    of the raw name, one member per name; for the collections [zeta] and
    [alpha] the member [Alpha] comes before [Zeta]. *)
Theorem enumeration_of_sorted_names :
  (forall results doc,
      generate results = Ok doc ->
      let names := sort (collectionNames results) in
      (exists blocks,
          doc = join (LF ++ LF)
                  ([header; createCollectionEnum names] ++ blocks
                     ++ [createCollectionRecord names])%list) /\
      createCollectionEnum names
      = "export enum Collections {" ++ LF
          ++ String.concat "" (map enumMember names) ++ "}" /\
      Permutation names (filter truthy (map Collection.name results)) /\
      StronglySorted le names) /\
  createCollectionEnum (sort (collectionNames zetaAlpha))
  = "export enum Collections {" ++ LF
      ++ TAB ++ "Alpha = " ++ DQ ++ "alpha" ++ DQ ++ "," ++ LF
      ++ TAB ++ "Zeta = " ++ DQ ++ "zeta" ++ DQ ++ "," ++ LF
      ++ "}".
Proof.
  split; [|reflexivity].
  intros results doc H names.
  rewrite generate_eq in H.
  destruct (recordTypes results) as [blocks|e]; cbn [bind] in H; [|discriminate].
  injection H as <-.
  repeat split.
  - exists (sort blocks); reflexivity.
  - apply createCollectionEnum_eq.
  - apply sort_perm.
  - apply sort_sorted.
Qed.

Lemma enumeration_of_sorted_names_witness :
  generate zetaAlpha
  = Ok (header ++ LF ++ LF
        ++ "export enum Collections {" ++ LF
        ++ TAB ++ "Alpha = " ++ DQ ++ "alpha" ++ DQ ++ "," ++ LF
        ++ TAB ++ "Zeta = " ++ DQ ++ "zeta" ++ DQ ++ "," ++ LF
        ++ "}" ++ LF ++ LF
        ++ "export type AlphaRecord = {" ++ LF ++ "}" ++ LF ++ LF
        ++ "export type ZetaRecord = {" ++ LF ++ "}" ++ LF ++ LF
        ++ "export type CollectionRecords = {" ++ LF
        ++ TAB ++ "alpha: AlphaRecord" ++ LF
        ++ TAB ++ "zeta: ZetaRecord" ++ LF
        ++ "}") /\
  StronglySorted le (sort (collectionNames zetaAlpha)).
Proof.
  split; [reflexivity|].
  exact (proj2 (proj2 (proj2
           (proj1 enumeration_of_sorted_names zetaAlpha _ eq_refl)))).
Defined.

(** ** The document *)

Lemma prefix_append (a b : string) : prefix a (a ++ b) = true.
Proof.
  induction a as [|c a IH]; simpl; [now destruct b|].
  destruct (ascii_dec c c) as [_|N]; [exact IH|now elim N].
Qed.











(** ** Further examples of section 8 of the specification *)

Example sanitizeFieldName_digit : sanitizeFieldName "123abc" = DQ ++ "123abc" ++ DQ.
Proof. reflexivity. Qed.

Example sanitizeFieldName_letter : sanitizeFieldName "abc123" = "abc123".
Proof. reflexivity. Qed.

Example file_many :
  renderFieldType (mkRecordSchema "cover" "file" false (Some (mkOptions None (Some 3%Z))))
  = Ok "string[]".
Proof. reflexivity. Qed.

Example file_single (n : Z) :
  (n <= 1)%Z ->
  renderFieldType (mkRecordSchema "cover" "file" false (Some (mkOptions None (Some n))))
  = Ok "string" /\
  renderFieldType (mkRecordSchema "cover" "file" false (Some (mkOptions None None)))
  = Ok "string".
Proof.
  intros H; split; [|reflexivity].
  unfold renderFieldType; cbn.
  destruct (n =? 0)%Z; cbn; [reflexivity|].
  destruct (1 <? n)%Z eqn:E; [apply Z.ltb_lt in E; lia|reflexivity].
Qed.

(** * Further properties of the code *)

(** ** [toPascalCase] *)

















(** ** [sanitizeFieldName] *)

Lemma sanitizeFieldName_cases (name : string) :
  sanitizeFieldName name = if startsWithDigit name then DQ ++ name ++ DQ else name.
Proof.
  destruct name as [|c r]; [reflexivity|].
  unfold sanitizeFieldName; rewrite charAt_0_cons; cbn.
  now destruct (isDigit c).
Qed.

(** X6.  A name is wrapped in double quotes exactly when its first character
    is a decimal digit; every other name, the empty one and one with
    characters that no identifier may hold included, is emitted as it is. *)
Theorem sanitizeFieldName_quotes_leading_digit (name : string) :
  (startsWithDigit name = true -> sanitizeFieldName name = DQ ++ name ++ DQ) /\
  (startsWithDigit name = false -> sanitizeFieldName name = name).
Proof.
  rewrite sanitizeFieldName_cases; split; intros ->; reflexivity.
Qed.

Lemma sanitizeFieldName_quotes_leading_digit_witness :
  startsWithDigit "2fa" = true /\ sanitizeFieldName "2fa" = DQ ++ "2fa" ++ DQ /\
  startsWithDigit "my-field" = false /\ sanitizeFieldName "my-field" = "my-field".
Proof.
  split; [reflexivity|split].
  - apply (proj1 (sanitizeFieldName_quotes_leading_digit "2fa")); reflexivity.
  - split; [reflexivity|].
    apply (proj2 (sanitizeFieldName_quotes_leading_digit "my-field")); reflexivity.
Defined.

(** X7.  Sanitising a sanitised name changes nothing more: a quoted name does
    not start with a digit. *)
Theorem sanitizeFieldName_idempotent (name : string) :
  sanitizeFieldName (sanitizeFieldName name) = sanitizeFieldName name.
Proof.
  rewrite (sanitizeFieldName_cases name).
  destruct (startsWithDigit name) eqn:E.
  - now rewrite sanitizeFieldName_cases.
  - now rewrite sanitizeFieldName_cases, E.
Qed.

(** ** The rendering table *)

(** X8.  With its options present, a file field is an array of strings exactly
    when [maxSelect] is present and greater than one; zero, one, a negative
    number and an absent [maxSelect] all give a single string. *)
Theorem file_rendering (f : RecordSchema) (o : Options) :
  type f = "file" ->
  options f = Some o ->
  renderFieldType f
  = Ok (match maxSelect o with
        | Some n => if (1 <? n)%Z then "string[]" else "string"
        | None => "string"
        end).
Proof.
  intros Ht Ho; rewrite (renderFieldType_file f Ht), Ho; unfold fileType.
  destruct (maxSelect o) as [n|]; [|reflexivity].
  destruct (n =? 0)%Z eqn:E; cbn [negb andb]; [|now destruct (1 <? n)%Z].
  apply Z.eqb_eq in E; subst n; reflexivity.
Qed.

Lemma file_rendering_witness :
  type (withOptions coverField (Some (mkOptions None (Some 0%Z)))) = "file" /\
  renderFieldType (withOptions coverField (Some (mkOptions None (Some 0%Z))))
  = Ok "string" /\
  renderFieldType (withOptions coverField (Some (mkOptions None (Some 2%Z))))
  = Ok "string[]".
Proof.
  split; [reflexivity|split].
  - exact (file_rendering (withOptions coverField (Some (mkOptions None (Some 0%Z))))
             (mkOptions None (Some 0%Z)) eq_refl eq_refl).
  - exact (file_rendering (withOptions coverField (Some (mkOptions None (Some 2%Z))))
             (mkOptions None (Some 2%Z)) eq_refl eq_refl).
Defined.

(** X9.  For the nine types of the table that are plain strings the type
    expression depends on the type alone: the options bag, present or not, the
    name and [required] play no part, and a member line is always returned. *)
Theorem constant_type_ignores_options (f g : RecordSchema) :
  In (type f) constantTypes ->
  type g = type f ->
  renderFieldType g = renderFieldType f /\ isOk (createTypeField g) = true.
Proof.
  intros H E; unfold createTypeField, renderFieldType; rewrite E.
  unfold constantTypes in H; cbn [In] in H.
  repeat (destruct H as [H|H]); try (rewrite <- H; split; reflexivity).
  contradiction.
Qed.

Lemma constant_type_ignores_options_witness :
  In (type (mkRecordSchema "body" "json" true None)) constantTypes /\
  renderFieldType (mkRecordSchema "meta" "json" false (Some (mkOptions (Some ["a"]) None)))
  = renderFieldType (mkRecordSchema "body" "json" true None).
Proof.
  split; [unfold constantTypes; cbn; tauto|].
  apply (constant_type_ignores_options (mkRecordSchema "body" "json" true None));
    [unfold constantTypes; cbn; tauto|reflexivity].
Defined.

(** ** Loops that may throw *)

Lemma mapM_app {A B : Type} (f : A -> result B) (xs ys : list A) :
  mapM f (xs ++ ys)
  = (us <- mapM f xs ;; vs <- mapM f ys ;; Ok (us ++ vs)%list).
Proof.
  induction xs as [|x xs IH]; cbn [app mapM bind].
  - now destruct (mapM f ys).
  - destruct (f x) as [y|e]; cbn [bind]; [|reflexivity].
    rewrite IH.
    destruct (mapM f xs) as [us|e]; cbn [bind]; [|reflexivity].
    now destruct (mapM f ys).
Qed.

Lemma mapM_isOk {A B : Type} (f : A -> result B) (xs : list A) :
  isOk (mapM f xs) = forallb (fun x => isOk (f x)) xs.
Proof.
  induction xs as [|x xs IH]; cbn [mapM forallb]; [reflexivity|].
  destruct (f x) as [y|e]; cbn [bind isOk andb]; [|reflexivity].
  rewrite <- IH; now destruct (mapM f xs).
Qed.

Lemma mapM_first_error {A B : Type} (f : A -> result B)
      (before : list A) (x : A) (after : list A) (e : error) :
  forallb (fun x => isOk (f x)) before = true ->
  f x = Throw e ->
  mapM f (before ++ x :: after) = Throw e.
Proof.
  intros Hb Hx; rewrite mapM_app.
  rewrite <- mapM_isOk in Hb.
  destruct (mapM f before) as [us|e']; [|discriminate Hb].
  cbn [bind mapM]; now rewrite Hx.
Qed.

Lemma mapM_Forall2 {A B : Type} (f : A -> result B) (xs : list A) (ys : list B) :
  mapM f xs = Ok ys -> Forall2 (fun x y => f x = Ok y) xs ys.
Proof.
  revert ys; induction xs as [|x xs IH]; intros ys; cbn [mapM].
  - intros [= <-]; constructor.
  - destruct (f x) as [y|e] eqn:E; cbn [bind]; [|discriminate].
    destruct (mapM f xs) as [ys'|e]; cbn [bind]; [|discriminate].
    intros [= <-]; constructor; [exact E|now apply IH].
Qed.

Lemma outcome_fields (ds : list (string * list RecordSchema)) :
  outcome (mapM renderDeclared ds) = outcome (mapM createTypeField (flat_map snd ds)).
Proof.
  induction ds as [|[n fields] ds IH]; cbn [mapM flat_map snd]; [reflexivity|].
  rewrite mapM_app; unfold renderDeclared at 1; cbn [fst snd].
  rewrite createRecordType_eq.
  destruct (mapM createTypeField fields) as [lines|e]; cbn [bind outcome];
    [|reflexivity].
  destruct (mapM renderDeclared ds) as [blocks|e],
           (mapM createTypeField (flat_map snd ds)) as [ls|e'];
    cbn [bind outcome] in *; congruence.
Qed.

Lemma outcome_generate (results : list Collection.t) :
  outcome (generate results) = outcome (mapM createTypeField (fieldsOf results)).
Proof.
  unfold fieldsOf; rewrite <- outcome_fields, generate_eq, recordTypes_eq.
  now destruct (mapM renderDeclared (declared results)).
Qed.

Lemma outcome_isOk {A B : Type} (m : result A) (m' : result B) :
  outcome m = outcome m' -> isOk m = isOk m'.
Proof. destruct m, m'; cbn; congruence. Qed.

(** ** [createRecordType] *)

(** X10.  A record type that renders is the opening line with the normalised
    collection name, then the member line of every field, one each and in the
    order of the fields, then the closing brace. *)
Theorem createRecordType_lines (collection : string) (schema : list RecordSchema)
        (block : string) :
  createRecordType collection schema = Ok block ->
  exists lines,
    Forall2 (fun f line => createTypeField f = Ok line) schema lines /\
    block = "export type " ++ toPascalCase collection ++ "Record = {" ++ LF
              ++ String.concat "" lines ++ "}".
Proof.
  rewrite createRecordType_eq.
  destruct (mapM createTypeField schema) as [lines|e] eqn:E; cbn [bind];
    [|discriminate].
  intros [= <-]; exists lines; split; [|reflexivity].
  now apply mapM_Forall2.
Qed.

Lemma createRecordType_lines_witness :
  createRecordType "users" [mkRecordSchema "email" "email" true None]
  = Ok ("export type UsersRecord = {" ++ LF ++ TAB ++ "email: string" ++ LF ++ "}") /\
  exists lines,
    Forall2 (fun f line => createTypeField f = Ok line)
            [mkRecordSchema "email" "email" true None] lines /\
    "export type UsersRecord = {" ++ LF ++ TAB ++ "email: string" ++ LF ++ "}"
    = "export type " ++ toPascalCase "users" ++ "Record = {" ++ LF
        ++ String.concat "" lines ++ "}".
Proof.
  split; [reflexivity|].
  apply (createRecordType_lines "users" [mkRecordSchema "email" "email" true None]);
    reflexivity.
Defined.

(** X11.  A record type renders exactly when every one of its fields does;
    otherwise it throws what the first field that fails throws, and the fields
    after it are not looked at. *)
Theorem createRecordType_fails_with_first (collection : string) :
  (forall schema,
      isOk (createRecordType collection schema) = forallb rendersField schema) /\
  (forall before f after e,
      forallb rendersField before = true ->
      createTypeField f = Throw e ->
      createRecordType collection (before ++ f :: after) = Throw e).
Proof.
  split.
  - intros schema; rewrite createRecordType_eq, <- (mapM_isOk createTypeField).
    now destruct (mapM createTypeField schema).
  - intros before f after e Hb Hf; rewrite createRecordType_eq.
    now rewrite (mapM_first_error createTypeField before f after e Hb Hf).
Qed.

Lemma createRecordType_fails_with_first_witness :
  forallb rendersField [statusField] = true /\
  createTypeField coverField = Throw TypeError /\
  createRecordType "broken" [statusField; coverField; bogusField] = Throw TypeError.
Proof.
  split; [reflexivity|split; [reflexivity|]].
  apply (proj2 (createRecordType_fails_with_first "broken")
           [statusField] coverField [bogusField] TypeError); reflexivity.
Defined.

(** ** [generate] *)

(** X12.  A document is returned exactly when every field of every collection
    that has a field list renders; otherwise the run ends with what the first
    failing field throws, in the order of the collections and of their fields,
    whatever comes after it. *)
Theorem generate_fails_with_first :
  (forall results,
      isOk (generate results) = forallb rendersField (fieldsOf results)) /\
  (forall results before f after e,
      fieldsOf results = (before ++ f :: after)%list ->
      forallb rendersField before = true ->
      createTypeField f = Throw e ->
      generate results = Throw e).
Proof.
  split.
  - intros results.
    rewrite (outcome_isOk _ _ (outcome_generate results)); apply mapM_isOk.
  - intros results before f after e Hs Hb Hf.
    pose proof (outcome_generate results) as H.
    rewrite Hs, (mapM_first_error createTypeField before f after e Hb Hf) in H.
    destruct (generate results) as [doc|e']; cbn [outcome] in H; congruence.
Qed.

Lemma generate_fails_with_first_witness :
  fieldsOf [usersRow; brokenRow]
  = ([mkRecordSchema "email" "email" true None; statusField]
       ++ coverField :: [bogusField])%list /\
  generate [usersRow; brokenRow] = Throw TypeError.
Proof.
  split; [reflexivity|].
  apply (proj2 generate_fails_with_first
           [usersRow; brokenRow]
           [mkRecordSchema "email" "email" true None; statusField]
           coverField [bogusField] TypeError); reflexivity.
Defined.

Lemma declared_app (a b : list Collection.t) :
  declared (a ++ b) = (declared a ++ declared b)%list.
Proof.
  induction a as [|row a IH]; cbn [app declared]; [reflexivity|].
  destruct (Collection.schema row); cbn [app]; now rewrite IH.
Qed.

Lemma collectionNames_app (a b : list Collection.t) :
  collectionNames (a ++ b) = (collectionNames a ++ collectionNames b)%list.
Proof. unfold collectionNames; now rewrite map_app, filter_app. Qed.

(** X13.  A row without name and without field list leaves no trace: the
    result, document or exception, is the one of the model without that row. *)
Theorem generate_skips_blank_row (before after : list Collection.t) (row : Collection.t) :
  blankRow row = true ->
  generate (before ++ row :: after) = generate (before ++ after).
Proof.
  unfold blankRow; intros [Hn Hs]%andb_prop.
  apply negb_true_iff in Hn.
  rewrite !generate_eq, !recordTypes_eq, !declared_app, !collectionNames_app.
  change (row :: after) with ([row] ++ after)%list.
  rewrite declared_app, collectionNames_app.
  unfold collectionNames at 2; cbn [declared map filter].
  rewrite Hn; destruct (Collection.schema row); [discriminate Hs|reflexivity].
Qed.

Lemma generate_skips_blank_row_witness :
  blankRow (Collection.mk "" None) = true /\
  generate ([usersRow] ++ Collection.mk "" None :: [postsRow]) = generate ([usersRow] ++ [postsRow]).
Proof.
  split; [reflexivity|].
  apply generate_skips_blank_row; reflexivity.
Defined.

Lemma Permutation_filter_string (p : string -> bool) (l l' : list string) :
  Permutation l l' -> Permutation (filter p l) (filter p l').
Proof.
  induction 1 as [|x l l' _ IH|x y l|l l' l'' _ IH1 _ IH2]; cbn [filter].
  - constructor.
  - destruct (p x); [now constructor|exact IH].
  - destruct (p x), (p y); try reflexivity; apply perm_swap.
  - now transitivity (filter p l').
Qed.

Lemma Permutation_declared (l l' : list Collection.t) :
  Permutation l l' -> Permutation (declared l) (declared l').
Proof.
  induction 1 as [|x l l' _ IH|x y l|l l' l'' _ IH1 _ IH2]; cbn [declared].
  - constructor.
  - destruct (Collection.schema x); [now constructor|exact IH].
  - destruct (Collection.schema x), (Collection.schema y); try reflexivity; apply perm_swap.
  - now transitivity (declared l').
Qed.

Lemma mapM_Permutation {A B : Type} (f : A -> result B) (xs xs' : list A) :
  Permutation xs xs' ->
  forall ys, mapM f xs = Ok ys ->
             exists ys', mapM f xs' = Ok ys' /\ Permutation ys ys'.
Proof.
  induction 1 as [|x l l' _ IH|x y l|l l' l'' _ IH1 _ IH2]; intros ys; cbn [mapM].
  - intros [= <-]; exists []; split; [reflexivity|constructor].
  - destruct (f x) as [b|e]; cbn [bind]; [|discriminate].
    destruct (mapM f l) as [bs|e]; cbn [bind]; [|discriminate].
    intros [= <-].
    destruct (IH bs eq_refl) as (bs' & -> & P).
    exists (b :: bs'); split; [reflexivity|now constructor].
  - destruct (f y) as [b|e]; cbn [bind]; [|discriminate].
    destruct (f x) as [c|e]; cbn [bind]; [|discriminate].
    destruct (mapM f l) as [bs|e]; cbn [bind]; [|discriminate].
    intros [= <-].
    exists (c :: b :: bs); split; [reflexivity|apply perm_swap].
  - intros H.
    destruct (IH1 ys H) as (ys' & H' & P1).
    destruct (IH2 ys' H') as (ys'' & H'' & P2).
    exists ys''; split; [exact H''|now transitivity ys'].
Qed.

Lemma sort_Permutation (l l' : list string) : Permutation l l' -> sort l' = sort l.
Proof.
  intros P; apply sort_unique; [|apply sort_sorted].
  now rewrite sort_perm, P.
Qed.

(** X14.  The order of the collections in the model does not show in the
    document: a model that renders gives the same text however its rows are
    arranged. *)
Theorem generate_order_independent (results results' : list Collection.t) (doc : string) :
  Permutation results results' ->
  generate results = Ok doc ->
  generate results' = Ok doc.
Proof.
  intros P; rewrite !generate_eq, !recordTypes_eq.
  destruct (mapM renderDeclared (declared results)) as [blocks|e] eqn:E;
    cbn [bind]; [|discriminate].
  intros [= <-].
  destruct (mapM_Permutation renderDeclared _ _ (Permutation_declared _ _ P) blocks E)
    as (blocks' & -> & PB).
  cbn [bind]; unfold fileParts.
  rewrite (sort_Permutation blocks blocks' PB).
  rewrite (sort_Permutation (collectionNames results) (collectionNames results')); auto.
  unfold collectionNames; now apply Permutation_filter_string, Permutation_map.
Qed.

Lemma generate_order_independent_witness :
  Permutation [usersRow; postsRow] [postsRow; usersRow] /\
  generate [postsRow; usersRow]
  = Ok (header ++ LF ++ LF
        ++ "export enum Collections {" ++ LF
        ++ TAB ++ "BlogPosts = " ++ DQ ++ "blog_posts" ++ DQ ++ "," ++ LF
        ++ TAB ++ "Users = " ++ DQ ++ "users" ++ DQ ++ "," ++ LF
        ++ "}" ++ LF ++ LF
        ++ "export type BlogPostsRecord = {" ++ LF
        ++ TAB ++ "status: " ++ DQ ++ "open" ++ DQ ++ " | " ++ DQ ++ "closed" ++ DQ ++ LF
        ++ TAB ++ "cover?: string[]" ++ LF
        ++ "}" ++ LF ++ LF
        ++ "export type UsersRecord = {" ++ LF
        ++ TAB ++ "email: string" ++ LF
        ++ "}" ++ LF ++ LF
        ++ "export type CollectionRecords = {" ++ LF
        ++ TAB ++ "blog_posts: BlogPostsRecord" ++ LF
        ++ TAB ++ "users: UsersRecord" ++ LF
        ++ "}").
Proof.
  split; [apply perm_swap|].
  apply (generate_order_independent [usersRow; postsRow] [postsRow; usersRow]);
    [apply perm_swap|reflexivity].
Defined.

Lemma mapM_In {A B : Type} (f : A -> result B) (xs : list A) (ys : list B) (x : A) :
  mapM f xs = Ok ys -> In x xs -> exists y, In y ys /\ f x = Ok y.
Proof.
  intros H; apply mapM_Forall2 in H.
  induction H as [|a b xs ys Hab _ IH]; intros I; [contradiction|].
  destruct I as [<-|I].
  - exists b; split; [now left|exact Hab].
  - destruct (IH I) as (y & Iy & Hy); exists y; split; [now right|exact Hy].
Qed.

Lemma In_declared (results : list Collection.t) (row : Collection.t) (schema : list RecordSchema) :
  In row results -> Collection.schema row = Some schema ->
  In (Collection.name row, schema) (declared results).
Proof.
  induction results as [|r rs IH]; intros I Hs; [contradiction|].
  cbn [declared]; destruct I as [->|I].
  - rewrite Hs; now left.
  - destruct (Collection.schema r); [right|]; now apply IH.
Qed.

(** X15.  In a document, every collection that has a field list has its
    record type among the parts: a part that opens with
    [export type <PascalCase name>Record = {], the type the composite mapping
    binds the collection to. *)
Theorem declared_collection_has_record_type
        (results : list Collection.t) (blocks : list string)
        (row : Collection.t) (schema : list RecordSchema) :
  recordTypes results = Ok blocks ->
  In row results ->
  Collection.schema row = Some schema ->
  exists part,
    In part (fileParts (collectionNames results) blocks) /\
    prefix ("export type " ++ toPascalCase (Collection.name row) ++ "Record = {") part = true.
Proof.
  intros H I Hs; rewrite recordTypes_eq in H.
  destruct (mapM_In renderDeclared _ _ _ H (In_declared results row schema I Hs))
    as (block & Ib & Hb).
  unfold renderDeclared in Hb; cbn [fst snd] in Hb.
  rewrite createRecordType_eq in Hb.
  destruct (mapM createTypeField schema) as [lines|e]; cbn [bind] in Hb;
    [|discriminate Hb].
  injection Hb as <-.
  eexists; split.
  - unfold fileParts; apply in_or_app; right; apply in_or_app; left.
    eapply Permutation_in; [symmetry; apply sort_perm|exact Ib].
  - match goal with
    | |- prefix ?opening ?block = true =>
        replace block with (opening ++ (LF ++ String.concat "" lines ++ "}"))
          by (now rewrite !append_assoc)
    end.
    apply prefix_append.
Qed.

Lemma declared_collection_has_record_type_witness :
  recordTypes [usersRow]
  = Ok ["export type UsersRecord = {" ++ LF ++ TAB ++ "email: string" ++ LF ++ "}"] /\
  exists part,
    In part (fileParts (collectionNames [usersRow])
               ["export type UsersRecord = {" ++ LF ++ TAB ++ "email: string" ++ LF ++ "}"]) /\
    prefix ("export type " ++ toPascalCase (Collection.name usersRow) ++ "Record = {") part = true.
Proof.
  split; [reflexivity|].
  apply (declared_collection_has_record_type [usersRow] _ usersRow
           [mkRecordSchema "email" "email" true None]);
    [reflexivity|now left|reflexivity].
Defined.

Lemma declared_none (results : list Collection.t) :
  (forall row, In row results -> Collection.schema row = None) -> declared results = [].
Proof.
  induction results as [|r rs IH]; intros H; [reflexivity|].
  cbn [declared]; rewrite (H r (or_introl eq_refl)).
  apply IH; intros row I; apply H; now right.
Qed.

(** X16.  A model in which no collection has a field list always renders, to a
    document of three parts: the header, the enumeration and the composite
    mapping.  The mapping still binds every named collection to a record type,
    and no such type is declared. *)
Theorem generate_without_field_lists (results : list Collection.t) :
  (forall row, In row results -> Collection.schema row = None) ->
  generate results
  = Ok (join (LF ++ LF)
          [ header;
            createCollectionEnum (sort (collectionNames results));
            createCollectionRecord (sort (collectionNames results)) ]).
Proof.
  intros H; rewrite generate_eq, recordTypes_eq, (declared_none results H).
  reflexivity.
Qed.

Lemma generate_without_field_lists_witness :
  generate [Collection.mk "users" None]
  = Ok (header ++ LF ++ LF
        ++ "export enum Collections {" ++ LF
        ++ TAB ++ "Users = " ++ DQ ++ "users" ++ DQ ++ "," ++ LF
        ++ "}" ++ LF ++ LF
        ++ "export type CollectionRecords = {" ++ LF
        ++ TAB ++ "users: UsersRecord" ++ LF
        ++ "}").
Proof.
  apply (generate_without_field_lists [Collection.mk "users" None]).
  intros row [<-|[]]; reflexivity.
Defined.

(** X17.  The composite mapping of a document has one line for every
    non-empty collection name, in the sorted order of the enumeration; the
    line binds the raw name, written as it is, to [<PascalCase name>Record]. *)
Theorem mapping_of_sorted_names (results : list Collection.t) (doc : string) :
  generate results = Ok doc ->
  exists blocks,
    doc = join (LF ++ LF)
            ([header; createCollectionEnum (sort (collectionNames results))]
               ++ blocks
               ++ [ ("export type CollectionRecords = {" ++ LF
                     ++ String.concat ""
                          (map (fun name => TAB ++ name ++ ": " ++ toPascalCase name
                                                ++ "Record" ++ LF)
                               (sort (collectionNames results)))
                     ++ "}")%string ])%list.
Proof.
  rewrite generate_eq.
  destruct (recordTypes results) as [blocks|e]; cbn [bind]; [|discriminate].
  intros [= <-]; exists (sort blocks).
  unfold fileParts; now rewrite createCollectionRecord_eq.
Qed.

Lemma mapping_of_sorted_names_witness :
  generate [Collection.mk "users" None]
  = Ok (header ++ LF ++ LF
        ++ "export enum Collections {" ++ LF
        ++ TAB ++ "Users = " ++ DQ ++ "users" ++ DQ ++ "," ++ LF
        ++ "}" ++ LF ++ LF
        ++ "export type CollectionRecords = {" ++ LF
        ++ TAB ++ "users: UsersRecord" ++ LF
        ++ "}") /\
  exists blocks,
    header ++ LF ++ LF
        ++ "export enum Collections {" ++ LF
        ++ TAB ++ "Users = " ++ DQ ++ "users" ++ DQ ++ "," ++ LF
        ++ "}" ++ LF ++ LF
        ++ "export type CollectionRecords = {" ++ LF
        ++ TAB ++ "users: UsersRecord" ++ LF
        ++ "}"
    = join (LF ++ LF)
        ([header; createCollectionEnum (sort (collectionNames [Collection.mk "users" None]))]
           ++ blocks
           ++ [ ("export type CollectionRecords = {" ++ LF
                 ++ String.concat ""
                      (map (fun name => TAB ++ name ++ ": " ++ toPascalCase name
                                            ++ "Record" ++ LF)
                           (sort (collectionNames [Collection.mk "users" None])))
                 ++ "}")%string ])%list.
Proof.
  split; [reflexivity|].
  apply (mapping_of_sorted_names [Collection.mk "users" None]); reflexivity.
Defined.

(** ** [main] and [saveFile] *)

(** X18.  A run of [main] has one of three shapes.  With no source given it
    prints the hint on the error stream and returns.  When the acquisition,
    the generation or the write throws, the exception leaves [main] and nothing
    has been written or printed.  Otherwise exactly one file is written, at the
    output path, holding the complete document of the acquired model, and then
    the confirmation is printed. *)
Theorem main_effects (io : Collaborators) (options2 : Cli.t) :
  (acquire io options2 = None /\
   main io options2 = ([ConsoleError missingSchemaPath], Ok tt)) \/
  (exists e,
      main io options2 = ([], Throw e) /\
      (acquire io options2 = Some (Throw e) \/
       exists schema,
         acquire io options2 = Some (Ok schema) /\
         (generate schema = Throw e \/
          exists doc, generate schema = Ok doc /\
                      writeFile io (Cli.out options2) doc = Throw e))) \/
  (exists schema doc,
      acquire io options2 = Some (Ok schema) /\
      generate schema = Ok doc /\
      main io options2
      = ([ WriteFile (Cli.out options2) doc;
           ConsoleLog ("Created typescript definitions at " ++ Cli.out options2) ],
         Ok tt)).
Proof.
  unfold main.
  destruct (acquire io options2) as [[schema|e]|].
  - destruct (generate schema) as [doc|e] eqn:G.
    + unfold saveFile.
      destruct (writeFile io (Cli.out options2) doc) as [u|e] eqn:W.
      * right; right; exists schema, doc; auto.
      * right; left; exists e; split; [reflexivity|].
        right; exists schema; split; [reflexivity|].
        right; exists doc; auto.
    + right; left; exists e; split; [reflexivity|].
      right; exists schema; auto.
  - right; left; exists e; auto.
  - left; auto.
Qed.

(** X19.  The sources are tried in the order database, JSON file, URL, and
    the first one given is the only one used: with a database path the other
    source options are without effect, and with a JSON path and no database
    path so are the URL and its credentials.  An option given as the empty
    string counts as not given. *)
Theorem main_source_priority (io : Collaborators) (a b : Cli.t) :
  Cli.out a = Cli.out b ->
  given (Cli.db a) = given (Cli.db b) ->
  (given (Cli.db a) <> None \/
   (given (Cli.json a) = given (Cli.json b) /\ given (Cli.json a) <> None)) ->
  main io a = main io b.
Proof.
  intros Hout Hdb H; unfold main, acquire; rewrite <- Hout, <- Hdb.
  destruct (given (Cli.db a)) as [path|]; [reflexivity|].
  destruct H as [H|[Hj H]]; [now elim H|].
  rewrite <- Hj.
  destruct (given (Cli.json a)) as [path|]; [reflexivity|now elim H].
Qed.

Lemma main_source_priority_witness :
  main (fixedIo [usersRow])
       (Cli.mk (Some "data.db") (Some "schema.json") (Some "http://h") None None "o.ts")
  = main (fixedIo [usersRow])
         (Cli.mk (Some "data.db") (Some "") None (Some "e") (Some "p") "o.ts") /\
  main (fixedIo [usersRow])
       (Cli.mk (Some "data.db") (Some "") None (Some "e") (Some "p") "o.ts")
  = ([ WriteFile "o.ts"
         (header ++ LF ++ LF
          ++ "export enum Collections {" ++ LF
          ++ TAB ++ "Users = " ++ DQ ++ "users" ++ DQ ++ "," ++ LF
          ++ "}" ++ LF ++ LF
          ++ "export type UsersRecord = {" ++ LF
          ++ TAB ++ "email: string" ++ LF
          ++ "}" ++ LF ++ LF
          ++ "export type CollectionRecords = {" ++ LF
          ++ TAB ++ "users: UsersRecord" ++ LF
          ++ "}");
       ConsoleLog "Created typescript definitions at o.ts" ], Ok tt).
Proof.
  split; [|reflexivity].
  apply main_source_priority; [reflexivity|reflexivity|left; discriminate].
Defined.

(** ** The type test of [createTypeField] *)

Lemma existsb_eqb_In (k : string) (l : list string) :
  existsb (String.eqb k) l = true <-> In k l.
Proof.
  rewrite existsb_exists; split.
  - intros (x & I & E); apply String.eqb_eq in E; now subst.
  - intros I; exists k; split; [exact I|apply String.eqb_refl].
Qed.

Lemma ownProperty_None (k : string) (obj : list (string * value)) :
  ownProperty k obj = None <-> ~ In k (map fst obj).
Proof.
  induction obj as [|[k' v] obj IH]; cbn [ownProperty map fst In]; [tauto|].
  destruct (String.eqb_spec k k') as [->|N].
  - split; [discriminate|]; intros H; elim H; now left.
  - rewrite IH; split; [intros H [E|I]; [now elim N|now elim H]|tauto].
Qed.

Lemma objectPrototype_None (k : string) :
  objectPrototype k = None <-> ~ In k inheritedNames.
Proof.
  unfold objectPrototype, inheritedNames.
  rewrite in_app_iff, in_app_iff; cbn [In].
  destruct (String.eqb_spec k "constructor") as [->|N1];
    [split; [discriminate|]; intros H; elim H; auto|].
  destruct (String.eqb_spec k "toString") as [->|N2];
    [split; [discriminate|]; intros H; elim H; auto|].
  destruct (String.eqb_spec k "isPrototypeOf") as [->|N3];
    [split; [discriminate|]; intros H; elim H; auto|].
  destruct (existsb (String.eqb k) throwsOnUndefinedThis) eqn:E.
  - apply existsb_eqb_In in E; split; [discriminate|]; intros H; elim H; auto.
  - assert (NI : ~ In k throwsOnUndefinedThis)
      by (rewrite <- existsb_eqb_In, E; discriminate).
    destruct (String.eqb_spec k "__proto__") as [->|N4];
      [split; [discriminate|]; intros H; elim H; auto|].
    split; [|reflexivity]; intros _.
    intros H; intuition congruence.
Qed.

(** X20.  The type test lets through the eleven keys of the table and the
    twelve property names an object literal inherits, and nothing else: a
    field of any other type is refused with the message
    [unknown type <type> found in schema], whatever its name, [required] and
    options. *)
Theorem type_test (f : RecordSchema) :
  (rejected f <-> ~ In (type f) knownTypes /\ ~ In (type f) inheritedNames) /\
  (rejected f ->
   createTypeField f = Throw (Error ("unknown type " ++ type f ++ " found in schema"))).
Proof.
  split; [|exact (unknown_type_throws f)].
  unfold rejected, getProperty, knownTypes.
  rewrite <- ownProperty_None, <- objectPrototype_None.
  destruct (ownProperty (type f) pbSchemaTypescriptMap) as [v|].
  - split; [discriminate|]; intros [H _]; discriminate H.
  - tauto.
Qed.

Lemma type_test_witness :
  rejected bogusField /\
  createTypeField bogusField = Throw (Error "unknown type bogus found in schema").
Proof.
  split; [reflexivity|].
  apply (proj2 (type_test bogusField)); reflexivity.
Defined.

(** ** Separators *)




